(** * OUUCodingStandard: the awesomeness classifier, its value object and the
      example character

    A shallow embedding of
    - [Source/OUUCodingStandard/Public/OUUCodingStandard.h]
    - [Source/OUUCodingStandard/Private/OUUCodingStandard.cpp]

    Free functions without side effects are Rocq functions.  Code that reads
    the console variable, mutates the character or talks to the engine
    (delegates, ensure/check) runs in a small state-and-crash monad [M] over
    a [World]. *)

From Stdlib Require Import ZArith String List Bool Lia.
Import ListNotations.

Local Open Scope string_scope.
Local Open Scope list_scope.
Local Open Scope Z_scope.

(** ** Engine types *)

(** [int32].  The code only compares values of this type and does no
    arithmetic on them, so no wrap-around is involved.  Statements below
    range over every integer, hence over every [int32]. *)
Definition int32 : Type := Z.

(** [uint8], the underlying type of [EOUUExampleBodyPartColor]. *)
Definition uint8 : Type := Z.

(** [FString] and [FName]: text.  No name comparison is compiled in (the only
    ones sit below [#if 0]), so the case-insensitivity of [FName] plays no
    role. *)
Definition FString : Type := string.
Definition FName : Type := string.

(** [TAutoConsoleVariable<int32>]: a named integer cell owned by the engine's
    console manager. *)
Record TAutoConsoleVariable : Type := mkCVar {
  cvar_name : string;
  cvar_value : int32;
  cvar_help : string
}.

(** ** Enumerations

    A scoped enumeration holds any value of its underlying type; the
    enumerators name some of them.  Both enums are therefore carried by their
    underlying integer, which keeps the [default:] branch of a [switch]
    meaningful. *)

Module EOUUExampleBodyPartColor.
Record t : Type := of_uint8 { to_uint8 : uint8 }.
Definition Red : t := of_uint8 0.
Definition Green : t := of_uint8 1.
Definition Blue : t := of_uint8 2.
Definition Count : t := of_uint8 3.

Definition eqb (a b : t) : bool := to_uint8 a =? to_uint8 b.
Definition neqb (a b : t) : bool := negb (eqb a b).
End EOUUExampleBodyPartColor.

Module EAwesomenessLevel.
Record t : Type := of_int { to_int : int32 }.
Definition NotAwesome : t := of_int 0.
Definition SemiAwesome : t := of_int 1.
Definition Awesome : t := of_int 2.
Definition NumOf : t := of_int 3.

Definition eqb (a b : t) : bool := to_int a =? to_int b.
Definition neqb (a b : t) : bool := negb (eqb a b).
End EAwesomenessLevel.

(** ** [OUU::CodingStandard::FNumericAwesomeness] *)

Record FNumericAwesomeness : Type := mkNumericAwesomeness {
  AwesomenessReason : FString;
  Awesomeness : int32
}.

(** [FNumericAwesomeness() = default]: the member initialisers. *)
Definition FNumericAwesomeness_default : FNumericAwesomeness :=
  {| AwesomenessReason := ""; Awesomeness := 0 |}.

(** [FNumericAwesomeness(int32 InAwesomeness, const FString& InAwesomenessReason)] *)
Definition FNumericAwesomeness_ctor
    (InAwesomeness : int32) (InAwesomenessReason : FString) : FNumericAwesomeness :=
  {| AwesomenessReason := InAwesomenessReason; Awesomeness := InAwesomeness |}.

(** [explicit FNumericAwesomeness(int32 InAwesomeness)], delegating. *)
Definition FNumericAwesomeness_ctor_explicit (InAwesomeness : int32) : FNumericAwesomeness :=
  FNumericAwesomeness_ctor InAwesomeness "unknown reason".

(** [operator==] and [operator<] *)
Definition operator_eq (LHS RHS : FNumericAwesomeness) : bool :=
  Awesomeness LHS =? Awesomeness RHS.

Definition operator_lt (LHS RHS : FNumericAwesomeness) : bool :=
  Awesomeness LHS <? Awesomeness RHS.

(** ** [AOUUExampleCharacter]: the members the modelled methods touch *)

Record AOUUExampleCharacter : Type := mkCharacter {
  ActorName : FString;                           (* what [GetName()] returns *)
  Score : int32;
  HeadColor : EOUUExampleBodyPartColor.t;
  TorsoColor : EOUUExampleBodyPartColor.t;
  bWasColorChanged : bool;
  CharacterData : FNumericAwesomeness
}.

Definition HeadBodyPartName : FName := "Head".
Definition TorsoBodyPartName : FName := "Body".

(** ** World and effects *)

(** What the engine is asked to do, in call order. *)
Inductive Event : Type :=
| OnAwesomenessChanged_Broadcast (Level : EAwesomenessLevel.t)
| EnsureFailed (Message : FString).

Record World : Type := mkWorld {
  CVar_MinAwesomeness : TAutoConsoleVariable;    (* Private::CVar_MinAwesomeness *)
  this : AOUUExampleCharacter;
  trace : list Event
}.

(** The console variable as the source declares it. *)
Definition CVar_MinAwesomeness_initial : TAutoConsoleVariable :=
  {| cvar_name := "ouu.CodingStandard.MinAwesomeness";
     cvar_value := 100;
     cvar_help := "Sample cvar that defines the minimum int value above 0 at which true awesomeness starts." |}.

Inductive Outcome (A : Type) : Type :=
| Returned (a : A) (w : World)
| Crashed (Message : FString).
Arguments Returned {A} a w.
Arguments Crashed {A} Message.

Definition M (A : Type) : Type := World -> Outcome A.

Definition ret {A} (a : A) : M A := fun w => Returned a w.

Definition bind {A B} (c : M A) (k : A -> M B) : M B :=
  fun w => match c w with
           | Returned a w' => k a w'
           | Crashed m => Crashed m
           end.

Notation "x <- c ;; k" := (bind c (fun x => k))
  (at level 61, c at next level, right associativity).
Notation "c ;;; k" := (bind c (fun _ => k))
  (at level 61, right associativity).

Definition gets {A} (f : World -> A) : M A := fun w => Returned (f w) w.
Definition modify (f : World -> World) : M unit := fun w => Returned tt (f w).
Definition crash {A} (Message : FString) : M A := fun _ => Crashed Message.

(** Field updates, written out member by member. *)
Definition with_event (e : Event) (w : World) : World :=
  {| CVar_MinAwesomeness := CVar_MinAwesomeness w;
     this := this w;
     trace := trace w ++ [e] |}.

Definition with_CharacterData (d : FNumericAwesomeness) (w : World) : World :=
  {| CVar_MinAwesomeness := CVar_MinAwesomeness w;
     this := {| ActorName := ActorName (this w); Score := Score (this w);
                HeadColor := HeadColor (this w); TorsoColor := TorsoColor (this w);
                bWasColorChanged := bWasColorChanged (this w);
                CharacterData := d |};
     trace := trace w |}.

Definition with_bWasColorChanged (b : bool) (w : World) : World :=
  {| CVar_MinAwesomeness := CVar_MinAwesomeness w;
     this := {| ActorName := ActorName (this w); Score := Score (this w);
                HeadColor := HeadColor (this w); TorsoColor := TorsoColor (this w);
                bWasColorChanged := b;
                CharacterData := CharacterData (this w) |};
     trace := trace w |}.

Definition emit (e : Event) : M unit := modify (with_event e).
Definition set_CharacterData (d : FNumericAwesomeness) : M unit := modify (with_CharacterData d).
Definition set_bWasColorChanged (b : bool) : M unit := modify (with_bWasColorChanged b).

(** [TAutoConsoleVariable::GetValueOnAnyThread()] *)
Definition GetValueOnAnyThread (cvar : World -> TAutoConsoleVariable) : M int32 :=
  gets (fun w => cvar_value (cvar w)).

(** The engine's console manager writing the variable (console command,
    config reload): the write path lies outside the repository. *)
Definition CVar_MinAwesomeness_Set (NewValue : int32) (w : World) : World :=
  {| CVar_MinAwesomeness :=
       {| cvar_name := cvar_name (CVar_MinAwesomeness w);
          cvar_value := NewValue;
          cvar_help := cvar_help (CVar_MinAwesomeness w) |};
     this := this w;
     trace := trace w |}.

(** [ensureMsgf]: reports once and carries on. *)
Definition ensureMsgf (Condition : bool) (Message : FString) : M unit :=
  if Condition then ret tt else emit (EnsureFailed Message).

(** [checkf]: a failed check ends the process. *)
Definition checkf (Condition : bool) (Message : FString) : M unit :=
  if Condition then ret tt else crash Message.

(** [AActor::GetName()] *)
Definition GetName : M FString := gets (fun w => ActorName (this w)).

(** ** namespace [OUU::CodingStandard] *)

Definition AwesomenessLevelFromIntValue (Awesomeness : int32) : M EAwesomenessLevel.t :=
  if Awesomeness <? 0 then ret EAwesomenessLevel.NotAwesome
  else
    MinAwesomeness <- GetValueOnAnyThread CVar_MinAwesomeness ;;
    if Awesomeness <? MinAwesomeness then ret EAwesomenessLevel.SemiAwesome
    else ret EAwesomenessLevel.Awesome.

Definition LexToString (AwesomenessLevel : EAwesomenessLevel.t) : FString :=
  match EAwesomenessLevel.to_int AwesomenessLevel with
  | 0 => "NotAwesome"
  | 1 => "SemiAwesome"
  | 2 => "Awesome"
  | _ => "<invalid>"
  end.

(** [bool TryLexFromString(EAwesomenessLevel& OutAwesomenessLevel, const FString& String)].
    The reference parameter is passed in with the caller's current value and
    handed back as the second component. *)
Definition TryLexFromString (OutAwesomenessLevel : EAwesomenessLevel.t) (String : FString)
  : bool * EAwesomenessLevel.t :=
  (false, OutAwesomenessLevel).

(** [FNumericAwesomeness::GetAwesomenessLevel() const] *)
Definition FNumericAwesomeness_GetAwesomenessLevel (self : FNumericAwesomeness)
  : M EAwesomenessLevel.t :=
  AwesomenessLevelFromIntValue (Awesomeness self).

(** ** [AOUUExampleCharacter] methods *)

Definition AOUUExampleCharacter_GetAwesomenessLevel : M EAwesomenessLevel.t :=
  Data <- gets (fun w => CharacterData (this w)) ;;
  FNumericAwesomeness_GetAwesomenessLevel Data.

Definition AOUUExampleCharacter_SetAwesomeness (Awesomeness : int32) : M unit :=
  AwesomenessLevelBefore <- AOUUExampleCharacter_GetAwesomenessLevel ;;
  set_CharacterData (FNumericAwesomeness_ctor Awesomeness "set by SetAwesomeness") ;;;
  NewAwesomenessLevel <- AOUUExampleCharacter_GetAwesomenessLevel ;;
  if EAwesomenessLevel.neqb NewAwesomenessLevel AwesomenessLevelBefore
  then emit (OnAwesomenessChanged_Broadcast NewAwesomenessLevel)
  else ret tt.

(** The two branches on [BodyPartName] are disabled by [#if 0] and are not
    part of the compiled function. *)
Definition AOUUExampleCharacter_ColorBodyPart
    (BodyPartName : FName) (BodyPartColor : EOUUExampleBodyPartColor.t) : M bool :=
  Name <- GetName ;;
  ensureMsgf (EOUUExampleBodyPartColor.neqb BodyPartColor EOUUExampleBodyPartColor.Count)
             (Name ++ " - Count case must never be used to color body parts")%string ;;;
  Name' <- GetName ;;
  checkf (EOUUExampleBodyPartColor.neqb BodyPartColor EOUUExampleBodyPartColor.Count)
         (Name' ++ " - Cound case must never be used to color body parts")%string ;;;
  set_bWasColorChanged true ;;;
  ret false.

(** [UOUUExampleBlueprintFunctionLibrary::GetAwesomenessThreshold()] *)
Definition GetAwesomenessThreshold : M int32 :=
  GetValueOnAnyThread CVar_MinAwesomeness.

(** [TEnumRange<EOUUExampleBodyPartColor>()] as declared by
    [ENUM_RANGE_BY_COUNT(EOUUExampleBodyPartColor, EOUUExampleBodyPartColor::Count)]:
    the values from 0 up to, not including, [Count], in increasing order. *)
Definition TEnumRange_EOUUExampleBodyPartColor : list EOUUExampleBodyPartColor.t :=
  map (fun n => EOUUExampleBodyPartColor.of_uint8 (Z.of_nat n))
      (seq 0 (Z.to_nat (EOUUExampleBodyPartColor.to_uint8 EOUUExampleBodyPartColor.Count))).

(** The range-based [for] of [HasAllColorsPossible], with its early return. *)
Fixpoint HasAllColorsPossible_for
    (Head Torso : EOUUExampleBodyPartColor.t) (Range : list EOUUExampleBodyPartColor.t) : bool :=
  match Range with
  | [] => true
  | Color :: Rest =>
      if EOUUExampleBodyPartColor.neqb Head Color && EOUUExampleBodyPartColor.neqb Torso Color
      then false
      else HasAllColorsPossible_for Head Torso Rest
  end.

Definition AOUUExampleCharacter_HasAllColorsPossible : M bool :=
  Head <- gets (fun w => HeadColor (this w)) ;;
  Torso <- gets (fun w => TorsoColor (this w)) ;;
  ret (HasAllColorsPossible_for Head Torso TEnumRange_EOUUExampleBodyPartColor).

(** One [UE_LOG]/[UE_CLOG] request: category, verbosity and formatted text. *)
Inductive ELogVerbosity : Type := Verbosity_Log | Verbosity_Verbose.

Record LogCall : Type := mkLogCall {
  LogCategory : string;
  LogVerbosity : ELogVerbosity;
  LogMessage : FString
}.

Definition UE_LOG (Category : string) (Verbosity : ELogVerbosity) (Message : FString)
  : list LogCall :=
  [ {| LogCategory := Category; LogVerbosity := Verbosity; LogMessage := Message |} ].

Definition UE_CLOG (Condition : bool) (Category : string) (Verbosity : ELogVerbosity)
    (Message : FString) : list LogCall :=
  if Condition then UE_LOG Category Verbosity Message else [].

(** [AOUUExampleCharacter::HandleOwnAwesomenessChanged(EAwesomenessLevel) const].
    The method only logs; the log requests it makes are its result, in call
    order. *)
Definition AOUUExampleCharacter_HandleOwnAwesomenessChanged
    (Awesomeness : EAwesomenessLevel.t) : M (list LogCall) :=
  Name <- GetName ;;
  let FromIf :=
    if EAwesomenessLevel.eqb Awesomeness EAwesomenessLevel.Awesome
    then UE_LOG "LogOUUCodingStandard" Verbosity_Log
                ("Character " ++ Name ++ " just became AWESOME!")%string
    else [] in
  let FromClog :=
    UE_CLOG (EAwesomenessLevel.eqb Awesomeness EAwesomenessLevel.Awesome)
            "LogOUUCodingStandard" Verbosity_Log
            ("Character " ++ Name ++ " just became AWESOME!")%string in
  ret (FromIf ++ FromClog).

(** A caller that sets one score after another. *)
Fixpoint SetAwesomeness_each (Scores : list int32) : M unit :=
  match Scores with
  | [] => ret tt
  | NewScore :: Rest => AOUUExampleCharacter_SetAwesomeness NewScore ;;; SetAwesomeness_each Rest
  end.

(** Successive entries of a list of levels differ, starting from [Previous]. *)
Fixpoint adjacent_distinct (Previous : EAwesomenessLevel.t) (Levels : list EAwesomenessLevel.t)
  : Prop :=
  match Levels with
  | [] => True
  | Level :: Rest => Level <> Previous /\ adjacent_distinct Level Rest
  end.

(** ** Sample worlds *)

Definition AOUUExampleCharacter_initial : AOUUExampleCharacter :=
  {| ActorName := "OUUExampleCharacter_0";
     Score := 0;
     HeadColor := EOUUExampleBodyPartColor.Red;
     TorsoColor := EOUUExampleBodyPartColor.Red;
     bWasColorChanged := false;
     CharacterData := FNumericAwesomeness_default |}.

Definition World_initial : World :=
  {| CVar_MinAwesomeness := CVar_MinAwesomeness_initial;
     this := AOUUExampleCharacter_initial;
     trace := [] |}.

(** * Properties *)

(** ** Running the monad *)

Lemma bind_Returned {A B} (c : M A) (k : A -> M B) (w w' : World) (a : A) :
  c w = Returned a w' -> bind c k w = k a w'.
Proof. unfold bind; intros ->; reflexivity. Qed.

Lemma bind_Crashed {A B} (c : M A) (k : A -> M B) (w : World) (m : FString) :
  c w = Crashed m -> bind c k w = Crashed m.
Proof. unfold bind; intros ->; reflexivity. Qed.

(** ** Enumerations: the boolean tests decide equality *)

Lemma EAwesomenessLevel_eqb_eq (a b : EAwesomenessLevel.t) :
  EAwesomenessLevel.eqb a b = true <-> a = b.
Proof.
  destruct a as [x], b as [y]; unfold EAwesomenessLevel.eqb; simpl.
  rewrite Z.eqb_eq; split; [intros -> | intros [= ->]]; reflexivity.
Qed.

Lemma EAwesomenessLevel_neqb_true (a b : EAwesomenessLevel.t) :
  EAwesomenessLevel.neqb a b = true <-> a <> b.
Proof.
  unfold EAwesomenessLevel.neqb; rewrite negb_true_iff, <- not_true_iff_false.
  now rewrite EAwesomenessLevel_eqb_eq.
Qed.

Lemma EAwesomenessLevel_neqb_false (a b : EAwesomenessLevel.t) :
  EAwesomenessLevel.neqb a b = false <-> a = b.
Proof.
  unfold EAwesomenessLevel.neqb; rewrite negb_false_iff.
  apply EAwesomenessLevel_eqb_eq.
Qed.

Lemma EOUUExampleBodyPartColor_neqb_true (a b : EOUUExampleBodyPartColor.t) :
  EOUUExampleBodyPartColor.neqb a b = true <-> a <> b.
Proof.
  destruct a as [x], b as [y].
  unfold EOUUExampleBodyPartColor.neqb, EOUUExampleBodyPartColor.eqb; simpl.
  rewrite negb_true_iff, Z.eqb_neq; split; intros H; [intros [= E] | intros E]; apply H;
    [exact E | now rewrite E].
Qed.

(** ** The classifier never crashes and never writes *)

Section Classifier.
Variable w : World.

(** The threshold a call made in [w] reads. *)
Let T : int32 := cvar_value (CVar_MinAwesomeness w).

Lemma AwesomenessLevelFromIntValue_negative (s : int32) :
  s < 0 -> AwesomenessLevelFromIntValue s w = Returned EAwesomenessLevel.NotAwesome w.
Proof.
  intros Hs; unfold AwesomenessLevelFromIntValue.
  apply Z.ltb_lt in Hs; rewrite Hs; reflexivity.
Qed.

Lemma AwesomenessLevelFromIntValue_below (s : int32) :
  0 <= s -> s < T -> AwesomenessLevelFromIntValue s w = Returned EAwesomenessLevel.SemiAwesome w.
Proof.
  intros H0 Hs; unfold AwesomenessLevelFromIntValue.
  apply Z.ltb_ge in H0; rewrite H0.
  unfold bind, GetValueOnAnyThread, gets; fold T.
  apply Z.ltb_lt in Hs; rewrite Hs; reflexivity.
Qed.

Lemma AwesomenessLevelFromIntValue_reached (s : int32) :
  0 <= s -> T <= s -> AwesomenessLevelFromIntValue s w = Returned EAwesomenessLevel.Awesome w.
Proof.
  intros H0 Hs; unfold AwesomenessLevelFromIntValue.
  apply Z.ltb_ge in H0; rewrite H0.
  unfold bind, GetValueOnAnyThread, gets; fold T.
  apply Z.ltb_ge in Hs; rewrite Hs; reflexivity.
Qed.

Lemma AwesomenessLevelFromIntValue_total (s : int32) :
  exists l, AwesomenessLevelFromIntValue s w = Returned l w.
Proof.
  destruct (Z_lt_le_dec s 0) as [Hn | H0].
  - eexists; apply AwesomenessLevelFromIntValue_negative; exact Hn.
  - destruct (Z_lt_le_dec s T) as [Hb | Hr].
    + eexists; apply AwesomenessLevelFromIntValue_below; assumption.
    + eexists; apply AwesomenessLevelFromIntValue_reached; assumption.
Qed.
End Classifier.

(** ** Classification against the threshold *)

(** The boundary of the declared default, 100. *)
Example classify_99 :
  AwesomenessLevelFromIntValue 99 World_initial
  = Returned EAwesomenessLevel.SemiAwesome World_initial.
Proof. reflexivity. Qed.

Example classify_100 :
  AwesomenessLevelFromIntValue 100 World_initial
  = Returned EAwesomenessLevel.Awesome World_initial.
Proof. reflexivity. Qed.

Example classify_0 :
  AwesomenessLevelFromIntValue 0 World_initial
  = Returned EAwesomenessLevel.SemiAwesome World_initial.
Proof. reflexivity. Qed.

(** C1.  Whatever the threshold [T] currently is, a non-negative score [s]
    classifies as SemiAwesome when [s < T] and as Awesome when [s >= T]; the
    comparison is strict, so a non-negative score equal to the threshold is
    Awesome.  The call returns and leaves the world as it found it. *)
Theorem classify_nonnegative_by_threshold (w : World) (T s : int32) :
  cvar_value (CVar_MinAwesomeness w) = T ->
  0 <= s ->
  (s < T -> AwesomenessLevelFromIntValue s w = Returned EAwesomenessLevel.SemiAwesome w) /\
  (s >= T -> AwesomenessLevelFromIntValue s w = Returned EAwesomenessLevel.Awesome w) /\
  (s = T -> AwesomenessLevelFromIntValue s w = Returned EAwesomenessLevel.Awesome w).
Proof.
  intros <- H0; repeat split; intros Hs.
  - apply AwesomenessLevelFromIntValue_below; assumption.
  - apply AwesomenessLevelFromIntValue_reached; [assumption | lia].
  - apply AwesomenessLevelFromIntValue_reached; [assumption | lia].
Qed.

Lemma classify_nonnegative_by_threshold_witness :
  AwesomenessLevelFromIntValue 99 World_initial
    = Returned EAwesomenessLevel.SemiAwesome World_initial /\
  AwesomenessLevelFromIntValue 101 World_initial
    = Returned EAwesomenessLevel.Awesome World_initial /\
  AwesomenessLevelFromIntValue 100 World_initial
    = Returned EAwesomenessLevel.Awesome World_initial.
Proof.
  split; [| split].
  - destruct (classify_nonnegative_by_threshold World_initial 100 99) as (Hlt & _ & _);
      [reflexivity | lia |].
    apply Hlt; lia.
  - destruct (classify_nonnegative_by_threshold World_initial 100 101) as (_ & Hge & _);
      [reflexivity | lia |].
    apply Hge; lia.
  - destruct (classify_nonnegative_by_threshold World_initial 100 100) as (_ & _ & Heq);
      [reflexivity | lia |].
    apply Heq; reflexivity.
Defined.

(** C2.  A negative score classifies as NotAwesome whatever the threshold
    is, negative thresholds included: the sign test comes first and the
    threshold is not consulted. *)
Theorem classify_negative_any_threshold (w : World) (T s : int32) :
  cvar_value (CVar_MinAwesomeness w) = T ->
  s < 0 ->
  AwesomenessLevelFromIntValue s w = Returned EAwesomenessLevel.NotAwesome w.
Proof.
  intros _ Hs; apply AwesomenessLevelFromIntValue_negative; exact Hs.
Qed.

Lemma classify_negative_any_threshold_witness :
  AwesomenessLevelFromIntValue (-1) (CVar_MinAwesomeness_Set (-5) World_initial)
  = Returned EAwesomenessLevel.NotAwesome (CVar_MinAwesomeness_Set (-5) World_initial).
Proof.
  apply (classify_negative_any_threshold (CVar_MinAwesomeness_Set (-5) World_initial) (-5) (-1));
    [reflexivity | lia].
Defined.

(** C5.  The threshold is read at each call.  With the variable set to 50,
    60 classifies as Awesome; once it is set to 1000, the same 60 classifies
    as SemiAwesome.  This holds both for two separate calls and for one run
    in which the variable is rewritten between two calls. *)
Theorem classify_follows_threshold_updates (w : World) :
  let w50 := CVar_MinAwesomeness_Set 50 w in
  let w1000 := CVar_MinAwesomeness_Set 1000 w50 in
  AwesomenessLevelFromIntValue 60 w50 = Returned EAwesomenessLevel.Awesome w50 /\
  AwesomenessLevelFromIntValue 60 w1000 = Returned EAwesomenessLevel.SemiAwesome w1000 /\
  (First <- AwesomenessLevelFromIntValue 60 ;;
   modify (CVar_MinAwesomeness_Set 1000) ;;;
   Second <- AwesomenessLevelFromIntValue 60 ;;
   ret (First, Second)) w50
  = Returned (EAwesomenessLevel.Awesome, EAwesomenessLevel.SemiAwesome) w1000.
Proof.
  intros w50 w1000.
  assert (H50 : AwesomenessLevelFromIntValue 60 w50 = Returned EAwesomenessLevel.Awesome w50)
    by (apply AwesomenessLevelFromIntValue_reached; simpl; lia).
  assert (H1000 : AwesomenessLevelFromIntValue 60 w1000
                  = Returned EAwesomenessLevel.SemiAwesome w1000)
    by (apply AwesomenessLevelFromIntValue_below; simpl; lia).
  split; [exact H50 | split; [exact H1000 |]].
  rewrite (bind_Returned _ _ _ _ _ H50).
  rewrite (bind_Returned (modify (CVar_MinAwesomeness_Set 1000)) _ w50 w1000 tt eq_refl).
  rewrite (bind_Returned _ _ _ _ _ H1000).
  reflexivity.
Qed.

(** ** Text conversion *)

(** C6.  [LexToString] gives each of the three levels its own literal and
    gives every other value of the enumeration, the [NumOf] sentinel
    included, the text "<invalid>".  It is a total function. *)
Theorem LexToString_cases :
  LexToString EAwesomenessLevel.NotAwesome = "NotAwesome" /\
  LexToString EAwesomenessLevel.SemiAwesome = "SemiAwesome" /\
  LexToString EAwesomenessLevel.Awesome = "Awesome" /\
  LexToString EAwesomenessLevel.NumOf = "<invalid>" /\
  forall l : EAwesomenessLevel.t,
    l <> EAwesomenessLevel.NotAwesome ->
    l <> EAwesomenessLevel.SemiAwesome ->
    l <> EAwesomenessLevel.Awesome ->
    LexToString l = "<invalid>".
Proof.
  repeat split.
  intros [z] H0 H1 H2; unfold LexToString; simpl.
  destruct z as [| p | p]; [now elim H0 | | reflexivity].
  destruct p as [ q | q | ]; [destruct q; reflexivity | | now elim H1].
  destruct q; [reflexivity | reflexivity | now elim H2].
Qed.

Lemma LexToString_cases_witness :
  LexToString (EAwesomenessLevel.of_int (-1)) = "<invalid>" /\
  LexToString (EAwesomenessLevel.of_int 4) = "<invalid>".
Proof.
  destruct LexToString_cases as (_ & _ & _ & _ & Hother).
  split; apply Hother; discriminate.
Defined.

(** C3.  [TryLexFromString] reports failure for every input text, the three
    level names included, and does so by its boolean result. *)
Theorem TryLexFromString_always_fails
    (OutAwesomenessLevel : EAwesomenessLevel.t) (String : FString) :
  fst (TryLexFromString OutAwesomenessLevel String) = false /\
  fst (TryLexFromString OutAwesomenessLevel "NotAwesome") = false /\
  fst (TryLexFromString OutAwesomenessLevel "SemiAwesome") = false /\
  fst (TryLexFromString OutAwesomenessLevel "Awesome") = false.
Proof. repeat split. Qed.

(** C9.  [TryLexFromString] hands the output parameter back holding the
    value the caller passed in, for every input text. *)
Theorem TryLexFromString_keeps_out_parameter
    (OutAwesomenessLevel : EAwesomenessLevel.t) (String : FString) :
  snd (TryLexFromString OutAwesomenessLevel String) = OutAwesomenessLevel.
Proof. reflexivity. Qed.

(** ** The value object *)

(** C7.  The one-argument constructor stores the score it is given and the
    reason "unknown reason". *)
Theorem ctor_explicit_unknown_reason (InAwesomeness : int32) :
  AwesomenessReason (FNumericAwesomeness_ctor_explicit InAwesomeness) = "unknown reason" /\
  Awesomeness (FNumericAwesomeness_ctor_explicit InAwesomeness) = InAwesomeness.
Proof. split; reflexivity. Qed.

(** C4.  Two instances built from the same score compare equal under
    [operator==] and neither is less than the other under [operator<],
    whatever their reasons.  More generally both operators give the same
    answer on any two pairs of instances whose scores agree: the reason
    takes no part in either comparison. *)
Theorem comparison_ignores_reason :
  (forall (score : int32) (reasonA reasonB : FString),
     let A := FNumericAwesomeness_ctor score reasonA in
     let B := FNumericAwesomeness_ctor score reasonB in
     operator_eq A B = true /\ operator_lt A B = false /\ operator_lt B A = false) /\
  (forall LHS RHS LHS' RHS' : FNumericAwesomeness,
     Awesomeness LHS = Awesomeness LHS' ->
     Awesomeness RHS = Awesomeness RHS' ->
     operator_eq LHS RHS = operator_eq LHS' RHS' /\
     operator_lt LHS RHS = operator_lt LHS' RHS').
Proof.
  split.
  - intros score reasonA reasonB A B; unfold operator_eq, operator_lt; simpl.
    rewrite Z.eqb_refl, Z.ltb_irrefl; repeat split.
  - intros LHS RHS LHS' RHS' HL HR; unfold operator_eq, operator_lt.
    rewrite HL, HR; split; reflexivity.
Qed.

Lemma comparison_ignores_reason_witness :
  operator_eq (FNumericAwesomeness_ctor 7 "dragon slayer") (FNumericAwesomeness_ctor 3 "")
    = operator_eq (FNumericAwesomeness_ctor 7 "unknown reason") (FNumericAwesomeness_ctor 3 "late")
  /\
  operator_lt (FNumericAwesomeness_ctor 7 "dragon slayer") (FNumericAwesomeness_ctor 3 "")
    = operator_lt (FNumericAwesomeness_ctor 7 "unknown reason") (FNumericAwesomeness_ctor 3 "late").
Proof.
  destruct comparison_ignores_reason as [_ Hscore].
  apply Hscore; reflexivity.
Defined.

(** ** The character *)

Lemma AOUUExampleCharacter_GetAwesomenessLevel_run (w : World) :
  AOUUExampleCharacter_GetAwesomenessLevel w
  = AwesomenessLevelFromIntValue (Awesomeness (CharacterData (this w))) w.
Proof. reflexivity. Qed.

Lemma AwesomenessLevelFromIntValue_same_threshold (s : int32) (w w' : World) (l : EAwesomenessLevel.t) :
  cvar_value (CVar_MinAwesomeness w') = cvar_value (CVar_MinAwesomeness w) ->
  AwesomenessLevelFromIntValue s w = Returned l w ->
  AwesomenessLevelFromIntValue s w' = Returned l w'.
Proof.
  intros HT; unfold AwesomenessLevelFromIntValue.
  destruct (s <? 0).
  - intros [= <-]; reflexivity.
  - unfold bind, GetValueOnAnyThread, gets; rewrite HT.
    destruct (s <? _); intros [= <-]; reflexivity.
Qed.

Lemma app_singleton_neq {A} (l : list A) (x : A) : l ++ [x] <> l.
Proof.
  intros E; apply (f_equal (@length A)) in E.
  rewrite length_app in E; simpl in E.
  apply (f_equal Z.of_nat) in E; lia.
Qed.

Lemma set_CharacterData_run (d : FNumericAwesomeness) (w : World) :
  set_CharacterData d w = Returned tt (with_CharacterData d w).
Proof. reflexivity. Qed.

(** C8.  For every state of the character and every new score, let
    [before] be the level [GetAwesomenessLevel] reports on entry and [after]
    the level of the new score.  [SetAwesomeness] returns, stores the new
    score, and appends exactly one [OnAwesomenessChanged] broadcast (carrying
    [after]) to the trace if and only if [after] differs from [before];
    when the two levels agree the trace is left as it was. *)
Theorem SetAwesomeness_broadcasts_iff_level_changes (w : World) (NewScore : int32) :
  exists (before after : EAwesomenessLevel.t) (w' : World),
    AOUUExampleCharacter_GetAwesomenessLevel w = Returned before w /\
    AwesomenessLevelFromIntValue NewScore w = Returned after w /\
    AOUUExampleCharacter_SetAwesomeness NewScore w = Returned tt w' /\
    AOUUExampleCharacter_GetAwesomenessLevel w' = Returned after w' /\
    CharacterData (this w') = FNumericAwesomeness_ctor NewScore "set by SetAwesomeness" /\
    (after <> before <-> trace w' = trace w ++ [OnAwesomenessChanged_Broadcast after]) /\
    (after = before <-> trace w' = trace w).
Proof.
  destruct (AwesomenessLevelFromIntValue_total w (Awesomeness (CharacterData (this w))))
    as [before Hbefore].
  destruct (AwesomenessLevelFromIntValue_total w NewScore) as [after Hafter].
  set (d := FNumericAwesomeness_ctor NewScore "set by SetAwesomeness").
  set (w1 := with_CharacterData d w).
  assert (Hafter1 : AOUUExampleCharacter_GetAwesomenessLevel w1 = Returned after w1).
  { rewrite AOUUExampleCharacter_GetAwesomenessLevel_run.
    apply AwesomenessLevelFromIntValue_same_threshold with (w := w); [reflexivity | exact Hafter]. }
  assert (Hrun : AOUUExampleCharacter_SetAwesomeness NewScore w
                 = (if EAwesomenessLevel.neqb after before
                    then emit (OnAwesomenessChanged_Broadcast after)
                    else ret tt) w1).
  { unfold AOUUExampleCharacter_SetAwesomeness.
    rewrite (bind_Returned _ _ w w before)
      by (rewrite AOUUExampleCharacter_GetAwesomenessLevel_run; exact Hbefore).
    rewrite (bind_Returned _ _ w w1 tt (set_CharacterData_run d w)).
    rewrite (bind_Returned _ _ w1 w1 after Hafter1).
    reflexivity. }
  assert (Hbefore0 : AOUUExampleCharacter_GetAwesomenessLevel w = Returned before w)
    by (rewrite AOUUExampleCharacter_GetAwesomenessLevel_run; exact Hbefore).
  destruct (EAwesomenessLevel.neqb after before) eqn:Hcmp.
  - apply EAwesomenessLevel_neqb_true in Hcmp.
    exists before, after, (with_event (OnAwesomenessChanged_Broadcast after) w1).
    split; [exact Hbefore0 |].
    split; [exact Hafter |].
    split; [rewrite Hrun; reflexivity |].
    split; [apply AwesomenessLevelFromIntValue_same_threshold with (w := w);
            [reflexivity | exact Hafter] |].
    split; [reflexivity |].
    split; split.
    + intros _; reflexivity.
    + intros _; exact Hcmp.
    + intros E; contradiction.
    + simpl; intros E; exfalso; exact (app_singleton_neq _ _ E).
  - apply EAwesomenessLevel_neqb_false in Hcmp.
    exists before, after, w1.
    split; [exact Hbefore0 |].
    split; [exact Hafter |].
    split; [rewrite Hrun; reflexivity |].
    split; [exact Hafter1 |].
    split; [reflexivity |].
    split; split.
    + intros Hne; contradiction.
    + simpl; intros E; symmetry in E; exfalso; exact (app_singleton_neq _ _ E).
    + intros _; reflexivity.
    + intros _; exact Hcmp.
Qed.

Lemma SetAwesomeness_broadcasts_iff_level_changes_witness :
  exists w' : World,
    AOUUExampleCharacter_SetAwesomeness 150 World_initial = Returned tt w' /\
    trace w' = [OnAwesomenessChanged_Broadcast EAwesomenessLevel.Awesome].
Proof.
  destruct (SetAwesomeness_broadcasts_iff_level_changes World_initial 150)
    as (before & after & w' & Hbefore & Hafter & Hrun & _ & _ & Hchanged & _).
  injection Hbefore as <-; injection Hafter as <-.
  exists w'; split; [exact Hrun |].
  apply Hchanged; discriminate.
Defined.

Example SetAwesomeness_within_level :
  AOUUExampleCharacter_SetAwesomeness 50 World_initial
  = Returned tt (with_CharacterData (FNumericAwesomeness_ctor 50 "set by SetAwesomeness")
                                    World_initial).
Proof. reflexivity. Qed.

(** C10.  For every body-part name and every colour other than [Count],
    [ColorBodyPart] returns [false]; the world it leaves differs from the one
    it found only in [bWasColorChanged], which is [true].  In particular
    [HeadColor] and [TorsoColor] keep their values, also when the name is
    "Head" or "Body". *)
Theorem ColorBodyPart_returns_false_and_only_sets_flag
    (w : World) (BodyPartName : FName) (BodyPartColor : EOUUExampleBodyPartColor.t) :
  BodyPartColor <> EOUUExampleBodyPartColor.Count ->
  exists w' : World,
    AOUUExampleCharacter_ColorBodyPart BodyPartName BodyPartColor w = Returned false w' /\
    w' = with_bWasColorChanged true w /\
    HeadColor (this w') = HeadColor (this w) /\
    TorsoColor (this w') = TorsoColor (this w) /\
    bWasColorChanged (this w') = true.
Proof.
  intros Hcolor; apply EOUUExampleBodyPartColor_neqb_true in Hcolor.
  exists (with_bWasColorChanged true w).
  split; [| repeat split].
  unfold AOUUExampleCharacter_ColorBodyPart.
  rewrite Hcolor; reflexivity.
Qed.

Lemma ColorBodyPart_returns_false_and_only_sets_flag_witness :
  AOUUExampleCharacter_ColorBodyPart HeadBodyPartName EOUUExampleBodyPartColor.Blue World_initial
  = Returned false (with_bWasColorChanged true World_initial).
Proof.
  destruct (ColorBodyPart_returns_false_and_only_sets_flag
              World_initial HeadBodyPartName EOUUExampleBodyPartColor.Blue)
    as (w' & Hrun & -> & _); [discriminate | exact Hrun].
Defined.

Example ColorBodyPart_Count_crashes :
  AOUUExampleCharacter_ColorBodyPart TorsoBodyPartName EOUUExampleBodyPartColor.Count World_initial
  = Crashed "OUUExampleCharacter_0 - Cound case must never be used to color body parts".
Proof. reflexivity. Qed.

(** * Further properties of the same code *)

(** ** Reading a classification backwards *)

Lemma AwesomenessLevelFromIntValue_inv (s : int32) (w w' : World) (l : EAwesomenessLevel.t) :
  AwesomenessLevelFromIntValue s w = Returned l w' ->
  w' = w /\
  ((s < 0 /\ l = EAwesomenessLevel.NotAwesome) \/
   (0 <= s < cvar_value (CVar_MinAwesomeness w) /\ l = EAwesomenessLevel.SemiAwesome) \/
   (0 <= s /\ cvar_value (CVar_MinAwesomeness w) <= s /\ l = EAwesomenessLevel.Awesome)).
Proof.
  destruct (Z_lt_le_dec s 0) as [Hn | H0].
  - rewrite (AwesomenessLevelFromIntValue_negative w s Hn); intros [= <- <-]; auto.
  - destruct (Z_lt_le_dec s (cvar_value (CVar_MinAwesomeness w))) as [Hb | Hr].
    + rewrite (AwesomenessLevelFromIntValue_below w s H0 Hb); intros [= <- <-].
      split; [reflexivity | right; left; auto].
    + rewrite (AwesomenessLevelFromIntValue_reached w s H0 Hr); intros [= <- <-].
      split; [reflexivity | right; right; auto].
Qed.

Lemma AwesomenessLevelFromIntValue_no_crash (s : int32) (w : World) (m : FString) :
  AwesomenessLevelFromIntValue s w <> Crashed m.
Proof.
  destruct (AwesomenessLevelFromIntValue_total w s) as [l ->]; discriminate.
Qed.

(** X1.  The classification can be read backwards: a call returns
    NotAwesome exactly for negative scores, SemiAwesome exactly for scores
    from 0 up to but not including the threshold, and Awesome exactly for
    non-negative scores that reach the threshold. *)
Theorem classify_level_determines_score_range (w : World) (s : int32) :
  let T := cvar_value (CVar_MinAwesomeness w) in
  (AwesomenessLevelFromIntValue s w = Returned EAwesomenessLevel.NotAwesome w <-> s < 0) /\
  (AwesomenessLevelFromIntValue s w = Returned EAwesomenessLevel.SemiAwesome w <-> 0 <= s < T) /\
  (AwesomenessLevelFromIntValue s w = Returned EAwesomenessLevel.Awesome w <-> 0 <= s /\ T <= s).
Proof.
  intros T; repeat split.
  - intros H; apply AwesomenessLevelFromIntValue_inv in H.
    destruct H as [_ [[Hs _] | [[_ E] | (_ & _ & E)]]]; [exact Hs | discriminate E | discriminate E].
  - apply AwesomenessLevelFromIntValue_negative.
  - apply AwesomenessLevelFromIntValue_inv in H.
    destruct H as [_ [[_ E] | [[Hs _] | (_ & _ & E)]]]; [discriminate E | lia | discriminate E].
  - apply AwesomenessLevelFromIntValue_inv in H.
    destruct H as [_ [[_ E] | [[Hs _] | (_ & _ & E)]]]; [discriminate E | exact (proj2 Hs) | discriminate E].
  - intros [H0 Hs]; apply AwesomenessLevelFromIntValue_below; assumption.
  - apply AwesomenessLevelFromIntValue_inv in H.
    destruct H as [_ [[_ E] | [[_ E] | (H0 & _ & _)]]]; [discriminate E | discriminate E | exact H0].
  - apply AwesomenessLevelFromIntValue_inv in H.
    destruct H as [_ [[_ E] | [[_ E] | (_ & Hs & _)]]]; [discriminate E | discriminate E | exact Hs].
  - intros [H0 Hs]; apply AwesomenessLevelFromIntValue_reached; assumption.
Qed.

Lemma classify_level_determines_score_range_witness :
  0 <= 250 /\ 100 <= 250.
Proof.
  apply (classify_level_determines_score_range World_initial 250).
  reflexivity.
Defined.

(** X2.  A classification is always one of the three named levels, never
    [NumOf] or an unnamed value, so its text is one of the three level names
    and never "<invalid>". *)
Theorem classify_yields_named_level (w : World) (s : int32) :
  exists l : EAwesomenessLevel.t,
    AwesomenessLevelFromIntValue s w = Returned l w /\
    (l = EAwesomenessLevel.NotAwesome \/ l = EAwesomenessLevel.SemiAwesome \/
     l = EAwesomenessLevel.Awesome) /\
    (LexToString l = "NotAwesome" \/ LexToString l = "SemiAwesome" \/ LexToString l = "Awesome") /\
    LexToString l <> "<invalid>".
Proof.
  destruct (AwesomenessLevelFromIntValue_total w s) as [l Hl].
  exists l; split; [exact Hl |].
  apply AwesomenessLevelFromIntValue_inv in Hl.
  destruct Hl as [_ [[_ ->] | [[_ ->] | (_ & _ & ->)]]];
    (split; [auto | split; [auto | discriminate]]).
Qed.

(** X3.  With the threshold fixed, the level never decreases when the score
    grows. *)
Theorem classify_monotone_in_score (w : World) (s1 s2 : int32) (l1 l2 : EAwesomenessLevel.t) :
  s1 <= s2 ->
  AwesomenessLevelFromIntValue s1 w = Returned l1 w ->
  AwesomenessLevelFromIntValue s2 w = Returned l2 w ->
  EAwesomenessLevel.to_int l1 <= EAwesomenessLevel.to_int l2.
Proof.
  intros Hle H1 H2.
  apply AwesomenessLevelFromIntValue_inv in H1; apply AwesomenessLevelFromIntValue_inv in H2.
  destruct H1 as [_ [[? ->] | [[? ->] | (? & ? & ->)]]];
    destruct H2 as [_ [[? ->] | [[? ->] | (? & ? & ->)]]]; simpl; lia.
Qed.

Lemma classify_monotone_in_score_witness :
  EAwesomenessLevel.to_int EAwesomenessLevel.SemiAwesome
  <= EAwesomenessLevel.to_int EAwesomenessLevel.Awesome.
Proof.
  apply (classify_monotone_in_score World_initial 7 100); [lia | reflexivity | reflexivity].
Defined.

(** X4.  With the score fixed, raising the threshold never raises the
    level: a level obtained under a larger threshold is at most the level
    obtained under a smaller one. *)
Theorem classify_antitone_in_threshold
    (w1 w2 : World) (s : int32) (l1 l2 : EAwesomenessLevel.t) :
  cvar_value (CVar_MinAwesomeness w1) <= cvar_value (CVar_MinAwesomeness w2) ->
  AwesomenessLevelFromIntValue s w1 = Returned l1 w1 ->
  AwesomenessLevelFromIntValue s w2 = Returned l2 w2 ->
  EAwesomenessLevel.to_int l2 <= EAwesomenessLevel.to_int l1.
Proof.
  intros Hle H1 H2.
  apply AwesomenessLevelFromIntValue_inv in H1; apply AwesomenessLevelFromIntValue_inv in H2.
  destruct H1 as [_ [[? ->] | [[? ->] | (? & ? & ->)]]];
    destruct H2 as [_ [[? ->] | [[? ->] | (? & ? & ->)]]]; simpl; lia.
Qed.

Lemma classify_antitone_in_threshold_witness :
  EAwesomenessLevel.to_int EAwesomenessLevel.SemiAwesome
  <= EAwesomenessLevel.to_int EAwesomenessLevel.Awesome.
Proof.
  apply (classify_antitone_in_threshold
           (CVar_MinAwesomeness_Set 50 World_initial) World_initial 60);
    [simpl; lia | reflexivity | reflexivity].
Defined.

(** X5.  The middle level exists only for a positive threshold: some score
    classifies as SemiAwesome if and only if the threshold is greater than 0.
    With a threshold of 0 or below every non-negative score is Awesome. *)
Theorem SemiAwesome_reachable_iff_positive_threshold (w : World) :
  ((exists s : int32,
      AwesomenessLevelFromIntValue s w = Returned EAwesomenessLevel.SemiAwesome w)
   <-> 0 < cvar_value (CVar_MinAwesomeness w)) /\
  (cvar_value (CVar_MinAwesomeness w) <= 0 ->
   forall s : int32, 0 <= s ->
     AwesomenessLevelFromIntValue s w = Returned EAwesomenessLevel.Awesome w).
Proof.
  split; [split |].
  - intros [s H]; apply AwesomenessLevelFromIntValue_inv in H.
    destruct H as [_ [[_ E] | [[Hs _] | (_ & _ & E)]]]; [discriminate E | lia | discriminate E].
  - intros HT; exists 0; apply AwesomenessLevelFromIntValue_below; lia.
  - intros HT s H0; apply AwesomenessLevelFromIntValue_reached; lia.
Qed.

Lemma SemiAwesome_reachable_iff_positive_threshold_witness :
  AwesomenessLevelFromIntValue 0 (CVar_MinAwesomeness_Set (-5) World_initial)
  = Returned EAwesomenessLevel.Awesome (CVar_MinAwesomeness_Set (-5) World_initial).
Proof.
  destruct (SemiAwesome_reachable_iff_positive_threshold
              (CVar_MinAwesomeness_Set (-5) World_initial)) as [_ Hall].
  apply Hall; simpl; lia.
Defined.

(** ** Level names *)

Lemma LexToString_invalid_or_named (l : EAwesomenessLevel.t) :
  LexToString l = "<invalid>" \/
  l = EAwesomenessLevel.NotAwesome \/ l = EAwesomenessLevel.SemiAwesome \/
  l = EAwesomenessLevel.Awesome.
Proof.
  destruct l as [z]; unfold LexToString; simpl.
  destruct z as [| p | p]; [right; left; reflexivity | | left; reflexivity].
  destruct p as [q | q |]; [left; destruct q; reflexivity | | right; right; left; reflexivity].
  destruct q; [left; reflexivity | left; reflexivity | right; right; right; reflexivity].
Qed.

(** X6.  Apart from the "<invalid>" marker, the text identifies the level:
    two levels with the same text are the same level unless both print as
    "<invalid>".  And a level prints as "<invalid>" exactly when it is none
    of NotAwesome, SemiAwesome, Awesome. *)
Theorem LexToString_injective_on_named_levels :
  (forall l1 l2 : EAwesomenessLevel.t,
     LexToString l1 = LexToString l2 ->
     LexToString l1 <> "<invalid>" ->
     l1 = l2) /\
  (forall l : EAwesomenessLevel.t,
     LexToString l = "<invalid>" <->
     l <> EAwesomenessLevel.NotAwesome /\ l <> EAwesomenessLevel.SemiAwesome /\
     l <> EAwesomenessLevel.Awesome).
Proof.
  split.
  - intros l1 l2 E Hvalid.
    destruct (LexToString_invalid_or_named l1) as [H1 | H1]; [contradiction |].
    destruct (LexToString_invalid_or_named l2) as [H2 | H2].
    + rewrite E in Hvalid; contradiction.
    + destruct H1 as [-> | [-> | ->]]; destruct H2 as [-> | [-> | ->]];
        first [reflexivity | discriminate E].
  - intros l; split.
    + intros H; repeat split; intros ->; discriminate H.
    + intros (H0 & H1 & H2).
      destruct (LexToString_invalid_or_named l) as [H | [H | [H | H]]];
        [exact H | contradiction | contradiction | contradiction].
Qed.

Lemma LexToString_injective_on_named_levels_witness :
  EAwesomenessLevel.of_int 2 = EAwesomenessLevel.Awesome.
Proof.
  destruct LexToString_injective_on_named_levels as [Hinj _].
  apply Hinj; [reflexivity | discriminate].
Defined.

(** ** The comparison operators as an order *)

(** X7.  [operator==] is an equivalence relation on instances: reflexive,
    symmetric and transitive. *)
Theorem operator_eq_equivalence :
  (forall a : FNumericAwesomeness, operator_eq a a = true) /\
  (forall a b : FNumericAwesomeness, operator_eq a b = operator_eq b a) /\
  (forall a b c : FNumericAwesomeness,
     operator_eq a b = true -> operator_eq b c = true -> operator_eq a c = true).
Proof.
  unfold operator_eq; repeat split.
  - intros a; apply Z.eqb_refl.
  - intros a b; apply Z.eqb_sym.
  - intros a b c Hab Hbc; apply Z.eqb_eq in Hab, Hbc; apply Z.eqb_eq; congruence.
Qed.

Lemma operator_eq_equivalence_witness :
  operator_eq (FNumericAwesomeness_ctor 5 "a") (FNumericAwesomeness_ctor 5 "c") = true.
Proof.
  destruct operator_eq_equivalence as (_ & _ & Htrans).
  apply (Htrans _ (FNumericAwesomeness_ctor 5 "b")); reflexivity.
Defined.

(** X8.  [operator<] is a strict order that is total up to [operator==]:
    it is irreflexive and transitive, and of [a < b], [a == b], [b < a]
    exactly one holds for any two instances.  Hence [a == b] holds exactly
    when neither is less than the other, which is what lets the remaining
    comparisons be derived from these two. *)
Theorem operator_lt_strict_total_order :
  (forall a : FNumericAwesomeness, operator_lt a a = false) /\
  (forall a b c : FNumericAwesomeness,
     operator_lt a b = true -> operator_lt b c = true -> operator_lt a c = true) /\
  (forall a b : FNumericAwesomeness,
     (operator_lt a b = true /\ operator_eq a b = false /\ operator_lt b a = false) \/
     (operator_lt a b = false /\ operator_eq a b = true /\ operator_lt b a = false) \/
     (operator_lt a b = false /\ operator_eq a b = false /\ operator_lt b a = true)) /\
  (forall a b : FNumericAwesomeness,
     operator_eq a b = negb (operator_lt a b) && negb (operator_lt b a)).
Proof.
  unfold operator_lt, operator_eq; repeat split.
  - intros a; apply Z.ltb_irrefl.
  - intros a b c Hab Hbc; apply Z.ltb_lt in Hab, Hbc; apply Z.ltb_lt; lia.
  - intros a b.
    destruct (Z.ltb_spec (Awesomeness a) (Awesomeness b));
      destruct (Z.eqb_spec (Awesomeness a) (Awesomeness b));
      destruct (Z.ltb_spec (Awesomeness b) (Awesomeness a)); try lia; auto.
  - intros a b.
    destruct (Z.ltb_spec (Awesomeness a) (Awesomeness b));
      destruct (Z.eqb_spec (Awesomeness a) (Awesomeness b));
      destruct (Z.ltb_spec (Awesomeness b) (Awesomeness a)); try lia; reflexivity.
Qed.

Lemma operator_lt_strict_total_order_witness :
  operator_lt (FNumericAwesomeness_ctor (-3) "x") (FNumericAwesomeness_ctor 40 "z") = true.
Proof.
  destruct operator_lt_strict_total_order as (_ & Htrans & _).
  apply (Htrans _ (FNumericAwesomeness_ctor 0 "y")); reflexivity.
Defined.

(** X9.  The comparisons agree with the levels.  In one world, instances
    that are [operator==]-equal have the same level, an instance that is
    [operator<] another has a level no higher, and an instance with a
    strictly lower level is [operator<] the other. *)
Theorem comparison_agrees_with_level
    (w : World) (a b : FNumericAwesomeness) (la lb : EAwesomenessLevel.t) :
  FNumericAwesomeness_GetAwesomenessLevel a w = Returned la w ->
  FNumericAwesomeness_GetAwesomenessLevel b w = Returned lb w ->
  (operator_eq a b = true -> la = lb) /\
  (operator_lt a b = true -> EAwesomenessLevel.to_int la <= EAwesomenessLevel.to_int lb) /\
  (EAwesomenessLevel.to_int la < EAwesomenessLevel.to_int lb -> operator_lt a b = true).
Proof.
  unfold FNumericAwesomeness_GetAwesomenessLevel, operator_eq, operator_lt; intros Ha Hb.
  split; [| split].
  - intros E; apply Z.eqb_eq in E; rewrite E in Ha; congruence.
  - intros L; apply Z.ltb_lt in L.
    apply AwesomenessLevelFromIntValue_inv in Ha; apply AwesomenessLevelFromIntValue_inv in Hb.
    destruct Ha as [_ [[? ->] | [[? ->] | (? & ? & ->)]]];
      destruct Hb as [_ [[? ->] | [[? ->] | (? & ? & ->)]]]; simpl; lia.
  - intros L; apply Z.ltb_lt.
    apply AwesomenessLevelFromIntValue_inv in Ha; apply AwesomenessLevelFromIntValue_inv in Hb.
    destruct Ha as [_ [[? ->] | [[? ->] | (? & ? & ->)]]];
      destruct Hb as [_ [[? ->] | [[? ->] | (? & ? & ->)]]]; simpl in L; lia.
Qed.

Lemma comparison_agrees_with_level_witness :
  operator_lt (FNumericAwesomeness_ctor_explicit 99) (FNumericAwesomeness_ctor 100 "hero") = true.
Proof.
  destruct (comparison_agrees_with_level World_initial
              (FNumericAwesomeness_ctor_explicit 99) (FNumericAwesomeness_ctor 100 "hero")
              EAwesomenessLevel.SemiAwesome EAwesomenessLevel.Awesome)
    as (_ & _ & Hlt); [reflexivity | reflexivity |].
  apply Hlt; simpl; lia.
Defined.

(** ** One call of [SetAwesomeness], step by step *)

Lemma EAwesomenessLevel_neqb_refl (l : EAwesomenessLevel.t) : EAwesomenessLevel.neqb l l = false.
Proof. apply EAwesomenessLevel_neqb_false; reflexivity. Qed.

Lemma SetAwesomeness_run (w : World) (NewScore : int32) (before after : EAwesomenessLevel.t) :
  AwesomenessLevelFromIntValue (Awesomeness (CharacterData (this w))) w = Returned before w ->
  AwesomenessLevelFromIntValue NewScore w = Returned after w ->
  AOUUExampleCharacter_SetAwesomeness NewScore w
  = Returned tt
      (if EAwesomenessLevel.neqb after before
       then with_event (OnAwesomenessChanged_Broadcast after)
              (with_CharacterData (FNumericAwesomeness_ctor NewScore "set by SetAwesomeness") w)
       else with_CharacterData (FNumericAwesomeness_ctor NewScore "set by SetAwesomeness") w).
Proof.
  intros Hbefore Hafter.
  set (d := FNumericAwesomeness_ctor NewScore "set by SetAwesomeness").
  assert (Hafter1 : AOUUExampleCharacter_GetAwesomenessLevel (with_CharacterData d w)
                    = Returned after (with_CharacterData d w)).
  { rewrite AOUUExampleCharacter_GetAwesomenessLevel_run.
    apply AwesomenessLevelFromIntValue_same_threshold with (w := w); [reflexivity | exact Hafter]. }
  unfold AOUUExampleCharacter_SetAwesomeness.
  rewrite (bind_Returned _ _ w w before)
    by (rewrite AOUUExampleCharacter_GetAwesomenessLevel_run; exact Hbefore).
  rewrite (bind_Returned _ _ w (with_CharacterData d w) tt (set_CharacterData_run d w)).
  rewrite (bind_Returned _ _ _ _ after Hafter1).
  destruct (EAwesomenessLevel.neqb after before); reflexivity.
Qed.


(** X11.  Setting the score that is already stored by [SetAwesomeness]
    changes nothing and notifies nobody, even when the threshold was
    rewritten in between and the level of that score is now a different
    one: the call compares two levels computed under the same, current
    threshold. *)
Theorem SetAwesomeness_same_score_again_is_silent
    (w w1 : World) (NewScore NewThreshold : int32) :
  AOUUExampleCharacter_SetAwesomeness NewScore w = Returned tt w1 ->
  AOUUExampleCharacter_SetAwesomeness NewScore w1 = Returned tt w1 /\
  AOUUExampleCharacter_SetAwesomeness NewScore (CVar_MinAwesomeness_Set NewThreshold w1)
  = Returned tt (CVar_MinAwesomeness_Set NewThreshold w1).
Proof.
  destruct (AwesomenessLevelFromIntValue_total w (Awesomeness (CharacterData (this w))))
    as [before Hbefore].
  destruct (AwesomenessLevelFromIntValue_total w NewScore) as [after Hafter].
  rewrite (SetAwesomeness_run w NewScore before after Hbefore Hafter).
  intros [= <-].
  split.
  - destruct (AwesomenessLevelFromIntValue_total
                (if EAwesomenessLevel.neqb after before
                 then with_event (OnAwesomenessChanged_Broadcast after)
                        (with_CharacterData
                           (FNumericAwesomeness_ctor NewScore "set by SetAwesomeness") w)
                 else with_CharacterData
                        (FNumericAwesomeness_ctor NewScore "set by SetAwesomeness") w)
                NewScore) as [l Hl].
    rewrite (SetAwesomeness_run _ NewScore l l);
      [ | destruct (EAwesomenessLevel.neqb after before); exact Hl | exact Hl ].
    rewrite EAwesomenessLevel_neqb_refl.
    destruct (EAwesomenessLevel.neqb after before); reflexivity.
  - destruct (AwesomenessLevelFromIntValue_total
                (CVar_MinAwesomeness_Set NewThreshold
                   (if EAwesomenessLevel.neqb after before
                    then with_event (OnAwesomenessChanged_Broadcast after)
                           (with_CharacterData
                              (FNumericAwesomeness_ctor NewScore "set by SetAwesomeness") w)
                    else with_CharacterData
                           (FNumericAwesomeness_ctor NewScore "set by SetAwesomeness") w))
                NewScore) as [l Hl].
    rewrite (SetAwesomeness_run _ NewScore l l);
      [ | destruct (EAwesomenessLevel.neqb after before); exact Hl | exact Hl ].
    rewrite EAwesomenessLevel_neqb_refl.
    destruct (EAwesomenessLevel.neqb after before); reflexivity.
Qed.

Lemma SetAwesomeness_same_score_again_is_silent_witness :
  exists w1 : World,
    AOUUExampleCharacter_SetAwesomeness 150 World_initial = Returned tt w1 /\
    AOUUExampleCharacter_SetAwesomeness 150 (CVar_MinAwesomeness_Set 1000 w1)
    = Returned tt (CVar_MinAwesomeness_Set 1000 w1).
Proof.
  eexists; split; [reflexivity |].
  apply (SetAwesomeness_same_score_again_is_silent World_initial _ 150 1000); reflexivity.
Defined.

(** ** Runs of [SetAwesomeness] *)

Lemma SetAwesomeness_step (w : World) (NewScore : int32) (before : EAwesomenessLevel.t) :
  AOUUExampleCharacter_GetAwesomenessLevel w = Returned before w ->
  exists (after : EAwesomenessLevel.t) (w1 : World),
    AOUUExampleCharacter_SetAwesomeness NewScore w = Returned tt w1 /\
    AOUUExampleCharacter_GetAwesomenessLevel w1 = Returned after w1 /\
    cvar_value (CVar_MinAwesomeness w1) = cvar_value (CVar_MinAwesomeness w) /\
    trace w1 = trace w ++ map OnAwesomenessChanged_Broadcast
                            (if EAwesomenessLevel.neqb after before then [after] else []).
Proof.
  rewrite AOUUExampleCharacter_GetAwesomenessLevel_run; intros Hbefore.
  destruct (AwesomenessLevelFromIntValue_total w NewScore) as [after Hafter].
  exists after; eexists.
  split; [apply (SetAwesomeness_run w NewScore before after Hbefore Hafter) |].
  rewrite AOUUExampleCharacter_GetAwesomenessLevel_run.
  destruct (EAwesomenessLevel.neqb after before); simpl.
  - split; [| split; reflexivity].
    apply AwesomenessLevelFromIntValue_same_threshold with (w := w); [reflexivity | exact Hafter].
  - split; [| split; [reflexivity | symmetry; apply app_nil_r]].
    apply AwesomenessLevelFromIntValue_same_threshold with (w := w); [reflexivity | exact Hafter].
Qed.

Lemma last_cons_default {A} (x d : A) (l : list A) : last (x :: l) d = last l x.
Proof.
  revert x d; induction l as [| y l IH]; intros x d; [reflexivity |].
  change (last (x :: y :: l) d) with (last (y :: l) d).
  rewrite (IH y d), (IH y x); reflexivity.
Qed.

(** X12.  Following the broadcasts is enough to know the level, as long as
    the threshold is left alone.  After any run of [SetAwesomeness] calls,
    the events appended to the trace are broadcasts only, at most one per
    call; each carries a level different from the one before it (the first
    differs from the level at the start); and the last one, or the starting
    level if there was none, is the level the character has at the end. *)
Theorem SetAwesomeness_each_broadcasts_track_level (Scores : list int32) :
  forall (w : World) (before : EAwesomenessLevel.t),
    AOUUExampleCharacter_GetAwesomenessLevel w = Returned before w ->
    exists (w' : World) (Levels : list EAwesomenessLevel.t),
      SetAwesomeness_each Scores w = Returned tt w' /\
      cvar_value (CVar_MinAwesomeness w') = cvar_value (CVar_MinAwesomeness w) /\
      trace w' = trace w ++ map OnAwesomenessChanged_Broadcast Levels /\
      (length Levels <= length Scores)%nat /\
      adjacent_distinct before Levels /\
      AOUUExampleCharacter_GetAwesomenessLevel w' = Returned (last Levels before) w'.
Proof.
  induction Scores as [| s Rest IH]; intros w before Hbefore.
  - exists w, []; simpl.
    repeat split; [symmetry; apply app_nil_r | lia | exact Hbefore].
  - destruct (SetAwesomeness_step w s before Hbefore) as (after & w1 & Hrun & Hlevel & Hcvar & Htrace).
    destruct (IH w1 after Hlevel) as (w' & Levels & Hrest & Hcvar' & Htrace' & Hlen & Hadj & Hlast).
    exists w'.
    exists ((if EAwesomenessLevel.neqb after before then [after] else []) ++ Levels).
    split; [simpl; rewrite (bind_Returned _ _ w w1 tt Hrun); exact Hrest |].
    split; [congruence |].
    split; [rewrite Htrace', Htrace, map_app, app_assoc; reflexivity |].
    destruct (EAwesomenessLevel.neqb after before) eqn:Hcmp.
    + apply EAwesomenessLevel_neqb_true in Hcmp.
      split; [simpl; lia |].
      split; [simpl; split; assumption |].
      change ([after] ++ Levels) with (after :: Levels).
      rewrite (last_cons_default after before Levels).
      exact Hlast.
    + apply EAwesomenessLevel_neqb_false in Hcmp; subst after.
      split; [simpl; lia |].
      split; assumption.
Qed.

Lemma SetAwesomeness_each_broadcasts_track_level_witness :
  exists (w' : World) (Levels : list EAwesomenessLevel.t),
    SetAwesomeness_each [5; 150; 200; -1] World_initial = Returned tt w' /\
    trace w' = trace World_initial ++ map OnAwesomenessChanged_Broadcast Levels /\
    AOUUExampleCharacter_GetAwesomenessLevel w'
    = Returned (last Levels EAwesomenessLevel.SemiAwesome) w'.
Proof.
  destruct (SetAwesomeness_each_broadcasts_track_level [5; 150; 200; -1]
              World_initial EAwesomenessLevel.SemiAwesome)
    as (w' & Levels & Hrun & _ & Htrace & _ & _ & Hlast); [reflexivity |].
  exists w', Levels; repeat split; assumption.
Defined.

Example SetAwesomeness_each_sample :
  exists w' : World,
    SetAwesomeness_each [5; 150; 200; -1] World_initial = Returned tt w' /\
    trace w' = [OnAwesomenessChanged_Broadcast EAwesomenessLevel.Awesome;
                OnAwesomenessChanged_Broadcast EAwesomenessLevel.NotAwesome].
Proof. eexists; split; reflexivity. Qed.

(** ** [ColorBodyPart]: the guard and how it composes *)

Lemma ColorBodyPart_run (w : World) (BodyPartName : FName)
    (BodyPartColor : EOUUExampleBodyPartColor.t) :
  BodyPartColor <> EOUUExampleBodyPartColor.Count ->
  AOUUExampleCharacter_ColorBodyPart BodyPartName BodyPartColor w
  = Returned false (with_bWasColorChanged true w).
Proof.
  intros Hcolor; apply EOUUExampleBodyPartColor_neqb_true in Hcolor.
  unfold AOUUExampleCharacter_ColorBodyPart; rewrite Hcolor; reflexivity.
Qed.

Lemma EOUUExampleBodyPartColor_eq_dec (a b : EOUUExampleBodyPartColor.t) : {a = b} + {a <> b}.
Proof.
  destruct a as [x], b as [y]; destruct (Z.eq_dec x y) as [-> | Hne];
    [left; reflexivity | right; intros [= E]; contradiction].
Qed.

(** X13.  [ColorBodyPart] crashes exactly when it is given [Count]: with
    [Count] the call never returns and ends in the [checkf] message built
    from the actor's name, whatever the body-part name; with any other
    colour it returns. *)
Theorem ColorBodyPart_crashes_iff_Count
    (w : World) (BodyPartName : FName) (BodyPartColor : EOUUExampleBodyPartColor.t) :
  (BodyPartColor = EOUUExampleBodyPartColor.Count ->
   AOUUExampleCharacter_ColorBodyPart BodyPartName BodyPartColor w
   = Crashed (ActorName (this w) ++ " - Cound case must never be used to color body parts")%string) /\
  (forall Message : FString,
     AOUUExampleCharacter_ColorBodyPart BodyPartName BodyPartColor w = Crashed Message ->
     BodyPartColor = EOUUExampleBodyPartColor.Count).
Proof.
  split.
  - intros ->; reflexivity.
  - intros Message Hcrash.
    destruct (EOUUExampleBodyPartColor_eq_dec BodyPartColor EOUUExampleBodyPartColor.Count)
      as [E | Hne]; [exact E |].
    rewrite (ColorBodyPart_run w BodyPartName BodyPartColor Hne) in Hcrash; discriminate Hcrash.
Qed.

Lemma ColorBodyPart_crashes_iff_Count_witness :
  AOUUExampleCharacter_ColorBodyPart "Tail" EOUUExampleBodyPartColor.Count World_initial
  = Crashed "OUUExampleCharacter_0 - Cound case must never be used to color body parts".
Proof.
  destruct (ColorBodyPart_crashes_iff_Count World_initial "Tail" EOUUExampleBodyPartColor.Count)
    as [Hcrash _].
  apply Hcrash; reflexivity.
Defined.

(** X14.  A second [ColorBodyPart] adds nothing to the first: for colours
    other than [Count], two calls in a row, with any names and colours,
    leave the same world and result as the first call alone. *)
Theorem ColorBodyPart_twice_same_as_once
    (w : World) (Name1 Name2 : FName) (Color1 Color2 : EOUUExampleBodyPartColor.t) :
  Color1 <> EOUUExampleBodyPartColor.Count ->
  Color2 <> EOUUExampleBodyPartColor.Count ->
  (AOUUExampleCharacter_ColorBodyPart Name1 Color1 ;;;
   AOUUExampleCharacter_ColorBodyPart Name2 Color2) w
  = AOUUExampleCharacter_ColorBodyPart Name1 Color1 w.
Proof.
  intros H1 H2.
  rewrite (bind_Returned _ _ w _ false (ColorBodyPart_run w Name1 Color1 H1)).
  rewrite (ColorBodyPart_run _ Name2 Color2 H2), (ColorBodyPart_run w Name1 Color1 H1).
  reflexivity.
Qed.

Lemma ColorBodyPart_twice_same_as_once_witness :
  (AOUUExampleCharacter_ColorBodyPart HeadBodyPartName EOUUExampleBodyPartColor.Green ;;;
   AOUUExampleCharacter_ColorBodyPart TorsoBodyPartName EOUUExampleBodyPartColor.Blue) World_initial
  = AOUUExampleCharacter_ColorBodyPart HeadBodyPartName EOUUExampleBodyPartColor.Green World_initial.
Proof.
  apply ColorBodyPart_twice_same_as_once; discriminate.
Defined.

(** X15.  [ColorBodyPart] and [SetAwesomeness] do not interfere: for a
    colour other than [Count], running them in either order ends in the same
    world, with the same broadcast (if any) in the trace. *)
Theorem ColorBodyPart_commutes_with_SetAwesomeness
    (w : World) (BodyPartName : FName) (BodyPartColor : EOUUExampleBodyPartColor.t)
    (NewScore : int32) :
  BodyPartColor <> EOUUExampleBodyPartColor.Count ->
  (AOUUExampleCharacter_ColorBodyPart BodyPartName BodyPartColor ;;;
   AOUUExampleCharacter_SetAwesomeness NewScore) w
  = (AOUUExampleCharacter_SetAwesomeness NewScore ;;;
     AOUUExampleCharacter_ColorBodyPart BodyPartName BodyPartColor ;;;
     ret tt) w.
Proof.
  intros Hcolor.
  destruct (AwesomenessLevelFromIntValue_total w (Awesomeness (CharacterData (this w))))
    as [before Hbefore].
  destruct (AwesomenessLevelFromIntValue_total w NewScore) as [after Hafter].
  rewrite (bind_Returned _ _ w _ false (ColorBodyPart_run w BodyPartName BodyPartColor Hcolor)).
  rewrite (bind_Returned _ _ w _ tt (SetAwesomeness_run w NewScore before after Hbefore Hafter)).
  rewrite (SetAwesomeness_run (with_bWasColorChanged true w) NewScore before after).
  - rewrite (bind_Returned _ _ _ _ false (ColorBodyPart_run _ BodyPartName BodyPartColor Hcolor)).
    destruct (EAwesomenessLevel.neqb after before); reflexivity.
  - apply AwesomenessLevelFromIntValue_same_threshold with (w := w); [reflexivity | exact Hbefore].
  - apply AwesomenessLevelFromIntValue_same_threshold with (w := w); [reflexivity | exact Hafter].
Qed.

Lemma ColorBodyPart_commutes_with_SetAwesomeness_witness :
  (AOUUExampleCharacter_ColorBodyPart HeadBodyPartName EOUUExampleBodyPartColor.Red ;;;
   AOUUExampleCharacter_SetAwesomeness 120) World_initial
  = (AOUUExampleCharacter_SetAwesomeness 120 ;;;
     AOUUExampleCharacter_ColorBodyPart HeadBodyPartName EOUUExampleBodyPartColor.Red ;;;
     ret tt) World_initial.
Proof.
  apply ColorBodyPart_commutes_with_SetAwesomeness; discriminate.
Defined.

(** ** [HasAllColorsPossible] *)

Lemma EOUUExampleBodyPartColor_eqb_eq (a b : EOUUExampleBodyPartColor.t) :
  EOUUExampleBodyPartColor.eqb a b = true <-> a = b.
Proof.
  destruct a as [x], b as [y]; unfold EOUUExampleBodyPartColor.eqb; simpl.
  rewrite Z.eqb_eq; split; [intros -> | intros [= ->]]; reflexivity.
Qed.

Example TEnumRange_is_Red_Green_Blue :
  TEnumRange_EOUUExampleBodyPartColor
  = [EOUUExampleBodyPartColor.Red; EOUUExampleBodyPartColor.Green; EOUUExampleBodyPartColor.Blue].
Proof. reflexivity. Qed.

Lemma HasAllColorsPossible_for_covers
    (Head Torso : EOUUExampleBodyPartColor.t) (Range : list EOUUExampleBodyPartColor.t) :
  HasAllColorsPossible_for Head Torso Range = true <->
  (forall Color : EOUUExampleBodyPartColor.t, In Color Range -> Head = Color \/ Torso = Color).
Proof.
  induction Range as [| c Rest IH]; simpl.
  - split; [intros _ Color [] | reflexivity].
  - unfold EOUUExampleBodyPartColor.neqb.
    destruct (EOUUExampleBodyPartColor.eqb Head c) eqn:Eh;
      destruct (EOUUExampleBodyPartColor.eqb Torso c) eqn:Et; simpl.
    + apply EOUUExampleBodyPartColor_eqb_eq in Eh.
      rewrite IH; split; [intros H Color [<- | Hin]; auto | intros H Color Hin; auto].
    + apply EOUUExampleBodyPartColor_eqb_eq in Eh.
      rewrite IH; split; [intros H Color [<- | Hin]; auto | intros H Color Hin; auto].
    + apply EOUUExampleBodyPartColor_eqb_eq in Et.
      rewrite IH; split; [intros H Color [<- | Hin]; auto | intros H Color Hin; auto].
    + split; [discriminate |].
      intros H; destruct (H c (or_introl eq_refl)) as [E | E];
        apply EOUUExampleBodyPartColor_eqb_eq in E; congruence.
Qed.

(** X16.  What the loop of [HasAllColorsPossible] decides, over any range:
    it answers [true] exactly when every colour of the range is the head
    colour or the torso colour.  An empty range gives [true]. *)
Theorem HasAllColorsPossible_for_true_iff
    (Head Torso : EOUUExampleBodyPartColor.t) (Range : list EOUUExampleBodyPartColor.t) :
  (HasAllColorsPossible_for Head Torso Range = true <->
   (forall Color : EOUUExampleBodyPartColor.t, In Color Range -> Head = Color \/ Torso = Color)) /\
  HasAllColorsPossible_for Head Torso [] = true.
Proof.
  split; [apply HasAllColorsPossible_for_covers | reflexivity].
Qed.

Lemma HasAllColorsPossible_for_true_iff_witness :
  HasAllColorsPossible_for EOUUExampleBodyPartColor.Red EOUUExampleBodyPartColor.Blue
    [EOUUExampleBodyPartColor.Blue; EOUUExampleBodyPartColor.Red; EOUUExampleBodyPartColor.Blue]
  = true.
Proof.
  destruct (HasAllColorsPossible_for_true_iff
              EOUUExampleBodyPartColor.Red EOUUExampleBodyPartColor.Blue
              [EOUUExampleBodyPartColor.Blue; EOUUExampleBodyPartColor.Red;
               EOUUExampleBodyPartColor.Blue]) as [[_ Hcovered] _].
  apply Hcovered.
  intros Color [<- | [<- | [<- | []]]]; auto.
Defined.

(** X17.  [HasAllColorsPossible] answers [false] for every character: the
    range holds three colours and the character has two coloured parts, so
    some colour of the range is on neither.  The call returns and changes
    nothing. *)
Theorem HasAllColorsPossible_always_false (w : World) :
  AOUUExampleCharacter_HasAllColorsPossible w = Returned false w.
Proof.
  unfold AOUUExampleCharacter_HasAllColorsPossible, bind, gets, ret.
  f_equal.
  destruct (HasAllColorsPossible_for (HeadColor (this w)) (TorsoColor (this w))
              TEnumRange_EOUUExampleBodyPartColor) eqn:E; [| reflexivity].
  exfalso.
  assert (H : forall Color, In Color TEnumRange_EOUUExampleBodyPartColor ->
                            HeadColor (this w) = Color \/ TorsoColor (this w) = Color)
    by (apply HasAllColorsPossible_for_covers; exact E).
  pose proof (H EOUUExampleBodyPartColor.Red (or_introl eq_refl)) as R.
  pose proof (H EOUUExampleBodyPartColor.Green (or_intror (or_introl eq_refl))) as G.
  pose proof (H EOUUExampleBodyPartColor.Blue (or_intror (or_intror (or_introl eq_refl)))) as B.
  unfold EOUUExampleBodyPartColor.Red, EOUUExampleBodyPartColor.Green,
    EOUUExampleBodyPartColor.Blue in R, G, B.
  destruct R as [R | R], G as [G | G], B as [B | B]; congruence.
Qed.

(** ** The Blueprint accessor and the change handler *)

(** X18.  [GetAwesomenessThreshold] reports the very number the classifier
    compares against: it returns without changing anything, and a
    non-negative score is Awesome exactly when it is at least the reported
    value and SemiAwesome exactly when it is below it. *)
Theorem GetAwesomenessThreshold_is_the_classifier_boundary (w : World) (s : int32) :
  0 <= s ->
  exists T : int32,
    GetAwesomenessThreshold w = Returned T w /\
    (AwesomenessLevelFromIntValue s w = Returned EAwesomenessLevel.Awesome w <-> T <= s) /\
    (AwesomenessLevelFromIntValue s w = Returned EAwesomenessLevel.SemiAwesome w <-> s < T).
Proof.
  intros H0; exists (cvar_value (CVar_MinAwesomeness w)).
  split; [reflexivity |]; split; split.
  - intros H; apply AwesomenessLevelFromIntValue_inv in H.
    destruct H as [_ [[_ E] | [[_ E] | (_ & Hs & _)]]]; [discriminate E | discriminate E | exact Hs].
  - intros Hs; apply AwesomenessLevelFromIntValue_reached; assumption.
  - intros H; apply AwesomenessLevelFromIntValue_inv in H.
    destruct H as [_ [[_ E] | [[Hs _] | (_ & _ & E)]]]; [discriminate E | lia | discriminate E].
  - intros Hs; apply AwesomenessLevelFromIntValue_below; assumption.
Qed.

Lemma GetAwesomenessThreshold_is_the_classifier_boundary_witness :
  exists T : int32,
    GetAwesomenessThreshold World_initial = Returned T World_initial /\ T <= 100.
Proof.
  destruct (GetAwesomenessThreshold_is_the_classifier_boundary World_initial 100)
    as (T & Hget & Hreached & _); [lia |].
  exists T; split; [exact Hget |].
  apply Hreached; injection Hget as <-; reflexivity.
Defined.

(** X19.  [HandleOwnAwesomenessChanged] only logs, and it logs the same
    line twice when told the level is Awesome, once from the [if] block and
    once from [UE_CLOG]; for every other level, [NumOf] and unnamed values
    included, it logs nothing.  Both requests go to [LogOUUCodingStandard]
    at verbosity [Log] and name the actor. *)
Theorem HandleOwnAwesomenessChanged_logs_twice_iff_Awesome
    (w : World) (Awesomeness : EAwesomenessLevel.t) :
  let Line := {| LogCategory := "LogOUUCodingStandard";
                 LogVerbosity := Verbosity_Log;
                 LogMessage := ("Character " ++ ActorName (this w) ++ " just became AWESOME!")%string |} in
  exists Calls : list LogCall,
    AOUUExampleCharacter_HandleOwnAwesomenessChanged Awesomeness w = Returned Calls w /\
    (Awesomeness = EAwesomenessLevel.Awesome -> Calls = [Line; Line]) /\
    (Awesomeness <> EAwesomenessLevel.Awesome -> Calls = []).
Proof.
  intros Line.
  unfold AOUUExampleCharacter_HandleOwnAwesomenessChanged, bind, GetName, gets, ret, UE_CLOG.
  destruct (EAwesomenessLevel.eqb Awesomeness EAwesomenessLevel.Awesome) eqn:E.
  - eexists; split; [reflexivity |]; split; [intros _; reflexivity |].
    apply EAwesomenessLevel_eqb_eq in E; intros Hne; contradiction.
  - eexists; split; [reflexivity |]; split; [| intros _; reflexivity].
    intros ->; discriminate E.
Qed.

Lemma HandleOwnAwesomenessChanged_logs_twice_iff_Awesome_witness :
  exists Calls : list LogCall,
    AOUUExampleCharacter_HandleOwnAwesomenessChanged EAwesomenessLevel.NumOf World_initial
    = Returned Calls World_initial /\ Calls = [].
Proof.
  destruct (HandleOwnAwesomenessChanged_logs_twice_iff_Awesome World_initial EAwesomenessLevel.NumOf)
    as (Calls & Hrun & _ & Hnone).
  exists Calls; split; [exact Hrun | apply Hnone; discriminate].
Defined.
